(** * The frontend audit client ([audit.ts]) and its envelope rules

    A shallow embedding of [src/smsly-rust/smsly-services/src/audit/frontend/audit.ts]:
    the [AuditEvent] interface, the [AuditClient] class with [logEvent] and its
    five convenience methods, and the parts of the JavaScript platform the
    class touches ([||], the conditional operator, [JSON.stringify], [fetch],
    [Date], [console.error]).

    Effects are modelled with a small monad: a computation reads the outside
    world (the clock and the network), emits a list of observable effects
    (requests sent, diagnostics printed) and completes either normally or by
    throwing.  An [async] method settles its promise accordingly: a normal
    completion fulfils it, a throw rejects it. *)

From Stdlib Require Import String Ascii List ZArith Bool Lia DecimalString.
Import ListNotations.
#[local] Set Warnings "-register-all".
Open Scope Z_scope.
Open Scope string_scope.

(** ** JavaScript values *)

Module Js.

(** Numbers: the integer-valued doubles (as [Z], meant within the safe-integer
    range) and the three non-finite ones.  Fractions are outside this model. *)
Inductive number : Type :=
| Finite (z : Z)
| NaN
| Infinity (negative : bool).

(** The data a [Record<string, any>] can hold, as far as [JSON.stringify]
    tells values apart: an object is its list of own properties in creation
    order (property names that are array indices, which JavaScript lists
    first, are not reordered here).  Values are trees: an object that
    contains itself, on which [JSON.stringify] throws as it does on a BigInt,
    has no counterpart. *)
Inductive value : Type :=
| Undefined
| Null
| Bool (b : bool)
| Num (n : number)
| BigInt (z : Z)
| Str (s : string)
| Arr (elems : list value)
| Obj (props : list (string * value)).

(** What a [throw] carries: the platform's [TypeError] and [DOMException]. *)
Inductive exn : Type :=
| TypeError (message : string)
| DOMException (name message : string).

Definition object : Type := list (string * value).

(** [ToBoolean]. *)
Definition truthy (v : value) : bool :=
  match v with
  | Undefined | Null => false
  | Bool b => b
  | Num (Finite z) => negb (z =? 0)%Z
  | Num NaN => false
  | Num (Infinity _) => true
  | BigInt z => negb (z =? 0)%Z
  | Str s => negb (s =? EmptyString)%string
  | Arr _ | Obj _ => true
  end.

(** [a || b]. *)
Definition or (a b : value) : value := if truthy a then a else b.

(** [c ? a : b]. *)
Definition cond (c a b : value) : value := if truthy c then a else b.

(** [a < b] on numbers. *)
Definition lt (a b : number) : bool :=
  match a, b with
  | NaN, _ | _, NaN => false
  | Finite x, Finite y => (x <? y)%Z
  | Finite _, Infinity neg => negb neg
  | Infinity neg, Finite _ => neg
  | Infinity n1, Infinity n2 => n1 && negb n2
  end.

(** Property read [o.k] on an object given by its properties; a missing
    property reads as [undefined]. *)
Fixpoint get_prop (k : string) (props : object) : value :=
  match props with
  | [] => Undefined
  | (k', v) :: rest => if (k =? k')%string then v else get_prop k rest
  end.

Definition get (k : string) (v : value) : value :=
  match v with
  | Obj props => get_prop k props
  | _ => Undefined
  end.

(** Defining property [k] in an object literal: an existing key keeps its
    place and takes the new value, a new key goes last. *)
Fixpoint set_prop (k : string) (v : value) (props : object) : object :=
  match props with
  | [] => [(k, v)]
  | (k', v') :: rest =>
      if (k =? k')%string then (k, v) :: rest else (k', v') :: set_prop k v rest
  end.

(** Object spread [{ ...base, ...src }]. *)
Definition spread (base src : object) : object :=
  fold_left (fun acc kv => set_prop (fst kv) (snd kv) acc) src base.

(** An optional string argument or property: [undefined] when missing. *)
Definition of_option_string (o : option string) : value :=
  match o with
  | Some s => Str s
  | None => Undefined
  end.

Definition of_option_object (o : option object) : value :=
  match o with
  | Some ps => Obj ps
  | None => Undefined
  end.

(** *** [JSON.stringify] *)

Definition hex_digit (n : N) : ascii :=
  match n with
  | 0 => "0" | 1 => "1" | 2 => "2" | 3 => "3" | 4 => "4" | 5 => "5" | 6 => "6"
  | 7 => "7" | 8 => "8" | 9 => "9" | 10 => "a" | 11 => "b" | 12 => "c"
  | 13 => "d" | 14 => "e" | _ => "f"
  end%N%char.

Definition backslash : ascii := "092"%char.
Definition dquote : ascii := "034"%char.

Definition escape (c : ascii) : string := String backslash (String c EmptyString).

(** One character of [QuoteJSONString]. *)
Definition quote_char (c : ascii) : string :=
  let n := N_of_ascii c in
  if (n =? 8)%N then escape "b"
  else if (n =? 9)%N then escape "t"
  else if (n =? 10)%N then escape "n"
  else if (n =? 12)%N then escape "f"
  else if (n =? 13)%N then escape "r"
  else if (n =? 34)%N then escape dquote
  else if (n =? 92)%N then escape backslash
  else if (n <? 32)%N then
    escape "u" ++ "00"
    ++ String (hex_digit (n / 16)) (String (hex_digit (n mod 16)) EmptyString)
  else String c EmptyString.

Fixpoint quote_chars (s : string) : string :=
  match s with
  | EmptyString => EmptyString
  | String c rest => quote_char c ++ quote_chars rest
  end.

Definition quote (s : string) : string :=
  String dquote (quote_chars s ++ String dquote EmptyString).

Definition number_to_json (n : number) : string :=
  match n with
  | Finite z => NilZero.string_of_int (Z.to_int z)
  | NaN | Infinity _ => "null"
  end.

(** Result of [SerializeJSONProperty]: text, [undefined] (the property is
    left out), or an abrupt completion. *)
Inductive serialized : Type :=
| Text (s : string)
| Omitted
| Raised (e : exn).

Definition bigint_error : exn := TypeError "Do not know how to serialize a BigInt".

Fixpoint join (sep : string) (parts : list string) : string :=
  match parts with
  | [] => EmptyString
  | [p] => p
  | p :: rest => p ++ sep ++ join sep rest
  end.

Fixpoint serialize (v : value) : serialized :=
  match v with
  | Undefined => Omitted
  | Null => Text "null"
  | Bool true => Text "true"
  | Bool false => Text "false"
  | Num n => Text (number_to_json n)
  | BigInt _ => Raised bigint_error
  | Str s => Text (quote s)
  | Arr elems =>
      let fix items (l : list value) : exn + list string :=
        match l with
        | [] => inr []
        | x :: rest =>
            match serialize x with
            | Raised e => inl e
            | Omitted =>
                match items rest with
                | inl e => inl e
                | inr ps => inr ("null" :: ps)
                end
            | Text s =>
                match items rest with
                | inl e => inl e
                | inr ps => inr (s :: ps)
                end
            end
        end in
      match items elems with
      | inl e => Raised e
      | inr ps => Text ("[" ++ join "," ps ++ "]")
      end
  | Obj props =>
      let fix members (l : list (string * value)) : exn + list string :=
        match l with
        | [] => inr []
        | (k, x) :: rest =>
            match serialize x with
            | Raised e => inl e
            | Omitted => members rest
            | Text s =>
                match members rest with
                | inl e => inl e
                | inr ps => inr ((quote k ++ ":" ++ s) :: ps)
                end
            end
        end in
      match members props with
      | inl e => Raised e
      | inr ps => Text ("{" ++ join "," ps ++ "}")
      end
  end.

End Js.

(** ** The platform's effects *)

(** A [Response] as [fetch] resolves it. *)
Record Response : Type := {
  status : Z;
  statusText : string;
  response_body : string
}.

(** [response.ok], which the Fetch standard defines from the status alone:
    true exactly for an ok status, 200 to 299. *)
Definition ok (r : Response) : bool :=
  ((200 <=? status r) && (status r <=? 299))%Z.

(** What [fetch(url, { method, headers, body })] puts on the wire; [body] is
    [None] when the argument is [undefined]. *)
Record Request : Type := {
  url : string;
  method : string;
  headers : list (string * string);
  body : option string
}.

(** [fetch]'s promise: resolved with a response whatever its status, or
    rejected (connection error, timeout, refused request). *)
Inductive FetchResult : Type :=
| Resolved (r : Response)
| Failed (e : Js.exn).

(** The outside world during one call: what [new Date().toISOString()] reads
    and how the network answers a request. *)
Record World : Type := {
  now : string;
  network : Request -> FetchResult
}.

Inductive effect : Type :=
| Fetched (req : Request) (res : FetchResult)
| ConsoleError (label : string) (e : Js.exn).

Inductive completion (A : Type) : Type :=
| Returned (a : A)
| Thrown (e : Js.exn).
Arguments Returned {A} a.
Arguments Thrown {A} e.

(** A computation: its effects in order, and how it completes.  For an [async]
    method [Returned a] is the promise fulfilled with [a] and [Thrown e] the
    promise rejected with [e]. *)
Definition M (A : Type) : Type := World -> list effect * completion A.

Definition ret {A} (a : A) : M A := fun _ => ([], Returned a).

Definition throw {A} (e : Js.exn) : M A := fun _ => ([], Thrown e).

Definition bind {A B} (m : M A) (k : A -> M B) : M B :=
  fun w =>
    match m w with
    | (t, Returned a) => let (t', c) := k a w in ((t ++ t')%list, c)
    | (t, Thrown e) => (t, Thrown e)
    end.

(** [try { m } catch (error) { handler }]. *)
Definition try_catch {A} (m : M A) (handler : Js.exn -> M A) : M A :=
  fun w =>
    match m w with
    | (t, Returned a) => (t, Returned a)
    | (t, Thrown e) => let (t', c) := handler e w in ((t ++ t')%list, c)
    end.

Declare Scope js_scope.
Delimit Scope js_scope with js.
Notation "x <- m ;; k" := (bind m (fun x => k))
  (at level 100, m at next level, right associativity) : js_scope.
Notation "m ;;; k" := (bind m (fun _ => k))
  (at level 100, right associativity) : js_scope.

(** [new Date().toISOString()]. *)
Definition Date_toISOString : M string := fun w => ([], Returned (now w)).

(** [JSON.stringify(v)]: the text, [undefined] for a value with no JSON form,
    or a throw. *)
Definition JSON_stringify (v : Js.value) : M (option string) :=
  match Js.serialize v with
  | Js.Text s => ret (Some s)
  | Js.Omitted => ret None
  | Js.Raised e => throw e
  end.

(** [await fetch(url, init)]: a rejected promise is thrown at the [await]. *)
Definition await_fetch (req : Request) : M Response :=
  fun w =>
    match network w req with
    | Resolved r => ([Fetched req (Resolved r)], Returned r)
    | Failed e => ([Fetched req (Failed e)], Thrown e)
    end.

(** [console.error(label, error)]. *)
Definition console_error (label : string) (e : Js.exn) : M unit :=
  fun _ => ([ConsoleError label e], Returned tt).

(** ** [interface AuditEvent] *)

Inductive Outcome : Type := success | failure | blocked.

Definition Outcome_string (o : Outcome) : string :=
  match o with
  | success => "success"
  | failure => "failure"
  | blocked => "blocked"
  end.

(** A property marked [?] is [None] when it is missing or [undefined]; the
    class reads both the same way. *)
Record AuditEvent : Type := {
  event_type : string;
  action : string;
  actor_id : option string;
  resource_type : option string;
  resource_id : option string;
  outcome : option Outcome;
  category : option string;
  severity : option string;
  payload : option Js.object
}.

Definition of_option_outcome (o : option Outcome) : Js.value :=
  match o with
  | Some x => Js.Str (Outcome_string x)
  | None => Js.Undefined
  end.

(** ** [class AuditClient] *)

Record AuditClient : Type := {
  gatewayUrl : string;
  serviceName : string
}.

(** [process.env.NAME || fallback]. *)
Definition env_or (env : string -> option string) (name fallback : string) : string :=
  match env name with
  | Some s => if (s =? EmptyString)%string then fallback else s
  | None => fallback
  end.

Definition constructor (env : string -> option string) : AuditClient :=
  {| gatewayUrl := env_or env "NEXT_PUBLIC_GATEWAY_URL" "http://localhost:8000";
     serviceName := env_or env "NEXT_PUBLIC_SERVICE_NAME" "smsly-frontend" |}.

(** The object literal [logEvent] hands to [JSON.stringify]. *)
Definition envelope (this : AuditClient) (event : AuditEvent) : Js.value :=
  Js.Obj
    [ ("service", Js.Str (serviceName this));
      ("event_type", Js.Str (event_type event));
      ("event_category",
        Js.or (Js.of_option_string (category event)) (Js.Str "general"));
      ("severity",
        Js.or (Js.of_option_string (severity event)) (Js.Str "info"));
      ("action", Js.Str (action event));
      ("actor_id",
        Js.or (Js.of_option_string (actor_id event)) (Js.Str "anonymous"));
      ("actor_type",
        Js.cond (Js.of_option_string (actor_id event))
                (Js.Str "user") (Js.Str "system"));
      ("resource_type", Js.of_option_string (resource_type event));
      ("resource_id", Js.of_option_string (resource_id event));
      ("outcome",
        Js.or (of_option_outcome (outcome event)) (Js.Str "success"));
      ("payload",
        Js.or (Js.of_option_object (payload event)) (Js.Obj [])) ].

Definition audit_request (this : AuditClient) (timestamp : string)
    (body : option string) : Request :=
  {| url := gatewayUrl this ++ "/api/v1/audit/events";
     method := "POST";
     headers := [ ("Content-Type", "application/json");
                  ("X-Service-Name", serviceName this);
                  ("X-Service-Timestamp", timestamp) ];
     body := body |}.

Definition logEvent (this : AuditClient) (event : AuditEvent) : M bool :=
  (timestamp <- Date_toISOString ;;
   body <- JSON_stringify (envelope this event) ;;
   try_catch
     (response <- await_fetch (audit_request this timestamp body) ;;
      ret (ok response))
     (fun error =>
        console_error "Audit failed:" error ;;;
        ret false))%js.

(** *** Convenience methods *)

Definition logPageView (this : AuditClient) (page : string)
    (userId : option string) : M bool :=
  logEvent this
    {| event_type := "page.view";
       action := "view";
       actor_id := userId;
       resource_type := Some "page";
       resource_id := Some page;
       outcome := None;
       category := Some "general";
       severity := None;
       payload := None |}.

Definition logUserAction (this : AuditClient) (action : string)
    (userId : string) (details : option Js.object) : M bool :=
  logEvent this
    {| event_type := "user." ++ action;
       action := action;
       actor_id := Some userId;
       resource_type := None;
       resource_id := None;
       outcome := None;
       category := Some "general";
       severity := None;
       payload := details |}.

(** The parameter [success] is written [success_]: [success] is taken by the
    [Outcome] value. *)
Definition logLogin (this : AuditClient) (userId : string) (success_ : bool)
    (ip : option string) : M bool :=
  logEvent this
    {| event_type := "auth.login";
       action := "login";
       actor_id := Some userId;
       resource_type := None;
       resource_id := None;
       outcome := Some (if success_ then success else failure);
       category := Some "auth";
       severity := Some (if success_ then "info" else "warning");
       payload := Some [("ip", Js.of_option_string ip)] |}.

Definition logApiCall (this : AuditClient) (endpoint method : string)
    (statusCode : Js.number) (userId : option string) : M bool :=
  logEvent this
    {| event_type := "api.call";
       action := method ++ " " ++ endpoint;
       actor_id := userId;
       resource_type := Some "api";
       resource_id := Some endpoint;
       outcome := Some (if Js.lt statusCode (Js.Finite 400) then success else failure);
       category := None;
       severity := None;
       payload := Some [("status_code", Js.Num statusCode)] |}.

Definition logError (this : AuditClient) (error : string)
    (context : option Js.object) : M bool :=
  logEvent this
    {| event_type := "error.client";
       action := "error";
       actor_id := None;
       resource_type := None;
       resource_id := None;
       outcome := Some failure;
       category := Some "security";
       severity := Some "error";
       payload := Some (Js.spread [("error", Js.Str error)]
                                  (match context with Some c => c | None => [] end)) |}.

(** ** Observations on a run *)

Definition effects {A} (m : M A) (w : World) : list effect := fst (m w).
Definition result {A} (m : M A) (w : World) : completion A := snd (m w).

(** The requests a run sent, in order. *)
Fixpoint requests (t : list effect) : list Request :=
  match t with
  | [] => []
  | Fetched req _ :: rest => req :: requests rest
  | ConsoleError _ _ :: rest => requests rest
  end.

(** The diagnostics a run printed, in order. *)
Fixpoint diagnostics (t : list effect) : list (string * Js.exn) :=
  match t with
  | [] => []
  | Fetched _ _ :: rest => diagnostics rest
  | ConsoleError l e :: rest => (l, e) :: diagnostics rest
  end.

(** ** Serialization of objects, and the runs of [logEvent] *)

(** The members of an object as [JSON.stringify] lists them. *)
Fixpoint object_members (props : Js.object) : Js.exn + list string :=
  match props with
  | [] => inr []
  | (k, x) :: rest =>
      match Js.serialize x with
      | Js.Raised e => inl e
      | Js.Omitted => object_members rest
      | Js.Text s =>
          match object_members rest with
          | inl e => inl e
          | inr ps => inr ((Js.quote k ++ ":" ++ s) :: ps)
          end
      end
  end.

(** A value [JSON.stringify] does not throw on. *)
Definition serializable (v : Js.value) : Prop :=
  forall e, Js.serialize v <> Js.Raised e.

(** The boolean reading of [serializable]. *)
Definition serializes (v : Js.value) : bool :=
  match Js.serialize v with
  | Js.Raised _ => false
  | _ => true
  end.

(** A request whose payload [JSON.stringify] does not throw on; the payload
    is the only part of the envelope that can make it throw. *)
Definition payload_serializable (event : AuditEvent) : Prop :=
  serializable (Js.of_option_object (payload event)).

(** A request with one header taken out. *)
Definition without_header (name : string) (req : Request) : Request :=
  {| url := url req;
     method := method req;
     headers := filter (fun h => negb (fst h =? name)%string) (headers req);
     body := body req |}.

(** The three ways a call can go: serialization throws before the [try]
    block is entered; the gateway answers; the transport fails and the
    [catch] block reports it. *)
Inductive logEvent_run (this : AuditClient) (event : AuditEvent) (w : World) :
    list effect * completion bool -> Prop :=
| run_unserializable (e : Js.exn) :
    Js.serialize (envelope this event) = Js.Raised e ->
    logEvent_run this event w ([], Thrown e)
| run_answered (text : string) (r : Response) :
    Js.serialize (envelope this event) = Js.Text text ->
    network w (audit_request this (now w) (Some text)) = Resolved r ->
    logEvent_run this event w
      ([Fetched (audit_request this (now w) (Some text)) (Resolved r)],
       Returned (ok r))
| run_transport_failed (text : string) (e : Js.exn) :
    Js.serialize (envelope this event) = Js.Text text ->
    network w (audit_request this (now w) (Some text)) = Failed e ->
    logEvent_run this event w
      ([Fetched (audit_request this (now w) (Some text)) (Failed e);
        ConsoleError "Audit failed:" e],
       Returned false).

(** ** Objects and JSON text, for the statements below *)

(** [k in o]. *)
Definition has_key (k : string) (o : Js.object) : bool :=
  existsb (fun kv => (fst kv =? k)%string) o.

(** An object has each of its property names once. *)
Fixpoint distinct_keys (o : Js.object) : bool :=
  match o with
  | [] => true
  | (k, _) :: rest => negb (has_key k rest) && distinct_keys rest
  end.

(** The properties [...context] spreads: none when [context] is [undefined]. *)
Definition context_props (context : option Js.object) : Js.object :=
  match context with
  | Some c => c
  | None => []
  end.

(** The string [o || d] evaluates to, for an optional string [o]. *)
Definition default_string (o : option string) (d : string) : string :=
  match o with
  | Some s => if (s =? EmptyString)%string then d else s
  | None => d
  end.

(** One member of a JSON object: the quoted name, a colon, the value's text. *)
Definition member (k text : string) : string := Js.quote k ++ ":" ++ text.

(** The member of an optional string property: none when it is [undefined]. *)
Definition optional_member (k : string) (o : option string) : list string :=
  match o with
  | Some s => [member k (Js.quote s)]
  | None => []
  end.

(** The members of the body [logEvent] sends, in order, given the JSON text
    [p] of the payload. *)
Definition body_members (this : AuditClient) (event : AuditEvent) (p : string) :
    list string :=
  ([ member "service" (Js.quote (serviceName this));
     member "event_type" (Js.quote (event_type event));
     member "event_category" (Js.quote (default_string (category event) "general"));
     member "severity" (Js.quote (default_string (severity event) "info"));
     member "action" (Js.quote (action event));
     member "actor_id" (Js.quote (default_string (actor_id event) "anonymous"));
     member "actor_type"
       (Js.quote (if Js.truthy (Js.of_option_string (actor_id event))
                  then "user" else "system")) ]
   ++ optional_member "resource_type" (resource_type event)
   ++ optional_member "resource_id" (resource_id event)
   ++ [ member "outcome"
          (Js.quote (match outcome event with
                     | Some o => Outcome_string o
                     | None => "success"
                     end));
        member "payload" p ])%list.

Definition body_text (this : AuditClient) (event : AuditEvent) (p : string) : string :=
  "{" ++ Js.join "," (body_members this event p) ++ "}".

(** ** Sample inputs *)

Definition client0 : AuditClient := constructor (fun _ => None).

Definition bare_event : AuditEvent :=
  {| event_type := "test.event"; action := "test";
     actor_id := None; resource_type := None; resource_id := None;
     outcome := None; category := None; severity := None; payload := None |}.

(** A request with one field replaced. *)
Definition with_actor (a : string) (e : AuditEvent) : AuditEvent :=
  {| event_type := event_type e; action := action e;
     actor_id := Some a; resource_type := resource_type e;
     resource_id := resource_id e; outcome := outcome e;
     category := category e; severity := severity e; payload := payload e |}.

Definition with_payload (p : Js.object) (e : AuditEvent) : AuditEvent :=
  {| event_type := event_type e; action := action e;
     actor_id := actor_id e; resource_type := resource_type e;
     resource_id := resource_id e; outcome := outcome e;
     category := category e; severity := severity e; payload := Some p |}.

Definition answer (code : Z) : Response :=
  {| status := code; statusText := EmptyString; response_body := EmptyString |}.

(** A gateway that answers every request with the given status. *)
Definition gateway (code : Z) : World :=
  {| now := "2024-05-01T12:00:00.000Z";
     network := fun _ => Resolved (answer code) |}.

(** A network that cannot be reached. *)
Definition offline : World :=
  {| now := "2024-05-01T12:00:01.250Z";
     network := fun _ => Failed (Js.TypeError "Failed to fetch") |}.

Definition with_category (c : option string) (e : AuditEvent) : AuditEvent :=
  {| event_type := event_type e; action := action e;
     actor_id := actor_id e; resource_type := resource_type e;
     resource_id := resource_id e; outcome := outcome e;
     category := c; severity := severity e; payload := payload e |}.

Definition with_severity (v : option string) (e : AuditEvent) : AuditEvent :=
  {| event_type := event_type e; action := action e;
     actor_id := actor_id e; resource_type := resource_type e;
     resource_id := resource_id e; outcome := outcome e;
     category := category e; severity := v; payload := payload e |}.

Definition unserializable_event : AuditEvent :=
  with_payload [("n", Js.BigInt 1)] bare_event.

(** The JSON text of the envelope of [bare_event] under [client0]. *)
Definition bare_event_json : string :=
  Eval vm_compute in
    match Js.serialize (envelope client0 bare_event) with
    | Js.Text t => t
    | _ => EmptyString
    end.

(** * Properties *)

(** ** Reading the envelope *)

Section Envelope.
Variable this : AuditClient.
Variable event : AuditEvent.

Lemma get_event_category :
  Js.get "event_category" (envelope this event)
  = Js.or (Js.of_option_string (category event)) (Js.Str "general").
Proof. reflexivity. Qed.

Lemma get_severity :
  Js.get "severity" (envelope this event)
  = Js.or (Js.of_option_string (severity event)) (Js.Str "info").
Proof. reflexivity. Qed.

Lemma get_actor_id :
  Js.get "actor_id" (envelope this event)
  = Js.or (Js.of_option_string (actor_id event)) (Js.Str "anonymous").
Proof. reflexivity. Qed.

Lemma get_actor_type :
  Js.get "actor_type" (envelope this event)
  = Js.cond (Js.of_option_string (actor_id event)) (Js.Str "user") (Js.Str "system").
Proof. reflexivity. Qed.

Lemma get_outcome :
  Js.get "outcome" (envelope this event)
  = Js.or (of_option_outcome (outcome event)) (Js.Str "success").
Proof. reflexivity. Qed.

Lemma get_payload :
  Js.get "payload" (envelope this event)
  = Js.or (Js.of_option_object (payload event)) (Js.Obj []).
Proof. reflexivity. Qed.
End Envelope.

(** [||] on an optional string: the string when it is there and not empty,
    the fallback otherwise. *)
Lemma or_string_present (s : string) (d : Js.value) :
  s <> EmptyString -> Js.or (Js.of_option_string (Some s)) d = Js.Str s.
Proof.
  intros Hs. unfold Js.or. cbn [Js.of_option_string Js.truthy].
  apply String.eqb_neq in Hs. now rewrite Hs.
Qed.

Lemma or_string_empty (d : Js.value) :
  Js.or (Js.of_option_string (Some EmptyString)) d = d.
Proof. reflexivity. Qed.

Lemma or_string_absent (d : Js.value) :
  Js.or (Js.of_option_string None) d = d.
Proof. reflexivity. Qed.

Lemma cond_string_present (s : string) (a b : Js.value) :
  s <> EmptyString -> Js.cond (Js.of_option_string (Some s)) a b = a.
Proof.
  intros Hs. unfold Js.cond. cbn [Js.of_option_string Js.truthy].
  apply String.eqb_neq in Hs. now rewrite Hs.
Qed.

Lemma Outcome_string_truthy (o : Outcome) :
  Js.truthy (Js.Str (Outcome_string o)) = true.
Proof. now destruct o. Qed.

Create Rewrite HintDb envelope.
#[local] Hint Rewrite get_event_category get_severity get_actor_id get_actor_type
  get_outcome get_payload or_string_empty or_string_absent : envelope.

Ltac envelope_fields := autorewrite with envelope.

(** ** Actor, defaults and falsy strings *)

(** C1, as stated, fails: a request whose [actor_id] is present and is the
    empty string gets the envelope [actor_id] "anonymous", not the supplied
    value, and [actor_type] "system", not "user". *)
Lemma empty_actor_id_reads_as_absent :
  actor_id (with_actor EmptyString bare_event) = Some EmptyString
  /\ Js.get "actor_id" (envelope client0 (with_actor EmptyString bare_event))
     = Js.Str "anonymous"
  /\ Js.get "actor_id" (envelope client0 (with_actor EmptyString bare_event))
     <> Js.Str EmptyString
  /\ Js.get "actor_type" (envelope client0 (with_actor EmptyString bare_event))
     = Js.Str "system"
  /\ Js.get "actor_type" (envelope client0 (with_actor EmptyString bare_event))
     <> Js.Str "user".
Proof. repeat split; try reflexivity; discriminate. Qed.

(** C1, amended: a request whose [actor_id] is present and not empty gets that
    value as the envelope [actor_id] and [actor_type] "user"; a request whose
    [actor_id] is missing or empty gets "anonymous" and "system".  The
    [actor_type] is decided by the request's [actor_id] alone: the envelope's
    own [actor_id] always reads as present. *)
Theorem envelope_actor (this : AuditClient) (event : AuditEvent) :
  (forall s, actor_id event = Some s -> s <> EmptyString ->
     Js.get "actor_id" (envelope this event) = Js.Str s
     /\ Js.get "actor_type" (envelope this event) = Js.Str "user")
  /\ (actor_id event = None \/ actor_id event = Some EmptyString ->
     Js.get "actor_id" (envelope this event) = Js.Str "anonymous"
     /\ Js.get "actor_type" (envelope this event) = Js.Str "system")
  /\ Js.get "actor_type" (envelope this event)
     = (if Js.truthy (Js.of_option_string (actor_id event))
        then Js.Str "user" else Js.Str "system")
  /\ Js.truthy (Js.get "actor_id" (envelope this event)) = true.
Proof.
  envelope_fields. split; [| split; [| split]].
  - intros s -> Hs. split.
    + now apply or_string_present.
    + now apply cond_string_present.
  - intros [-> | ->]; split; reflexivity.
  - reflexivity.
  - unfold Js.or.
    destruct (Js.truthy (Js.of_option_string (actor_id event))) eqn:E;
      [exact E | reflexivity].
Qed.

(** C3, as stated, fails: a request whose [category] is present and is the
    empty string does not get the supplied value as [event_category] (and
    likewise for [severity]). *)
Lemma empty_category_not_carried :
  category (with_category (Some EmptyString) bare_event) = Some EmptyString
  /\ Js.get "event_category"
       (envelope client0 (with_category (Some EmptyString) bare_event))
     = Js.Str "general"
  /\ Js.get "event_category"
       (envelope client0 (with_category (Some EmptyString) bare_event))
     <> Js.Str EmptyString.
Proof. repeat split; try reflexivity; discriminate. Qed.

(** C3, amended: a request lacking [category], [severity], [outcome] or
    [payload] gets "general", "info", "success" and the empty object; a
    [category] or [severity] that is present and not empty, and an [outcome]
    or [payload] that is present, is carried as supplied. *)
Theorem envelope_defaults (this : AuditClient) (event : AuditEvent) :
  (category event = None ->
     Js.get "event_category" (envelope this event) = Js.Str "general")
  /\ (severity event = None ->
     Js.get "severity" (envelope this event) = Js.Str "info")
  /\ (outcome event = None ->
     Js.get "outcome" (envelope this event) = Js.Str "success")
  /\ (payload event = None ->
     Js.get "payload" (envelope this event) = Js.Obj [])
  /\ (forall s, category event = Some s -> s <> EmptyString ->
     Js.get "event_category" (envelope this event) = Js.Str s)
  /\ (forall s, severity event = Some s -> s <> EmptyString ->
     Js.get "severity" (envelope this event) = Js.Str s)
  /\ (forall o, outcome event = Some o ->
     Js.get "outcome" (envelope this event) = Js.Str (Outcome_string o))
  /\ (forall p, payload event = Some p ->
     Js.get "payload" (envelope this event) = Js.Obj p).
Proof.
  envelope_fields. repeat apply conj.
  - now intros ->.
  - now intros ->.
  - now intros ->.
  - now intros ->.
  - intros s -> Hs. now apply or_string_present.
  - intros s -> Hs. now apply or_string_present.
  - intros o ->. unfold Js.or. cbn [of_option_outcome].
    now rewrite Outcome_string_truthy.
  - now intros p ->.
Qed.

(** C10: a [category] or [severity] that is present but is the empty string
    is replaced by the default, "general" or "info", exactly as when the
    field is missing. *)
Theorem envelope_empty_string_defaults (this : AuditClient) (event : AuditEvent) :
  (category event = Some EmptyString ->
     Js.get "event_category" (envelope this event) = Js.Str "general"
     /\ envelope this event = envelope this (with_category None event))
  /\ (severity event = Some EmptyString ->
     Js.get "severity" (envelope this event) = Js.Str "info"
     /\ envelope this event = envelope this (with_severity None event)).
Proof.
  split; intros H; split.
  - envelope_fields. now rewrite H.
  - unfold envelope. cbn [category severity event_type action actor_id resource_type
      resource_id outcome payload with_category]. now rewrite H.
  - envelope_fields. now rewrite H.
  - unfold envelope. cbn [category severity event_type action actor_id resource_type
      resource_id outcome payload with_severity]. now rewrite H.
Qed.

(** ** Serializing the envelope *)

Lemma serialize_object (props : Js.object) :
  Js.serialize (Js.Obj props)
  = match object_members props with
    | inl e => Js.Raised e
    | inr ps => Js.Text ("{" ++ Js.join "," ps ++ "}")
    end.
Proof.
  assert (H : forall l,
    (fix members (l : list (string * Js.value)) : Js.exn + list string :=
       match l with
       | [] => inr []
       | (k, x) :: rest =>
           match Js.serialize x with
           | Js.Raised e => inl e
           | Js.Omitted => members rest
           | Js.Text s =>
               match members rest with
               | inl e => inl e
               | inr ps => inr ((Js.quote k ++ ":" ++ s) :: ps)
               end
           end
       end) l = object_members l).
  { induction l as [| [k x] rest IH]; [reflexivity |].
    cbn [object_members]. rewrite <- IH. reflexivity. }
  cbn [Js.serialize]. now rewrite H.
Qed.

Lemma serialize_object_not_omitted (props : Js.object) :
  Js.serialize (Js.Obj props) <> Js.Omitted.
Proof.
  rewrite serialize_object. destruct (object_members props); discriminate.
Qed.

Lemma object_members_serializable (props : Js.object) :
  Forall (fun kv => serializable (snd kv)) props ->
  exists ps, object_members props = inr ps.
Proof.
  induction 1 as [| [k x] rest Hx _ [ps IH]]; cbn [object_members].
  - now exists [].
  - cbn [snd] in Hx. destruct (Js.serialize x) as [t | | e] eqn:E.
    + rewrite IH. eauto.
    + eauto.
    + now elim (Hx e).
Qed.

Lemma serializable_string (s : string) : serializable (Js.Str s).
Proof. intros e. discriminate. Qed.

Lemma serializable_option_string (o : option string) :
  serializable (Js.of_option_string o).
Proof. intros e. destruct o; discriminate. Qed.

Lemma serializable_or (a b : Js.value) :
  serializable a -> serializable b -> serializable (Js.or a b).
Proof. intros Ha Hb. unfold Js.or. now destruct (Js.truthy a). Qed.

Lemma serializable_cond (c a b : Js.value) :
  serializable a -> serializable b -> serializable (Js.cond c a b).
Proof. intros Ha Hb. unfold Js.cond. now destruct (Js.truthy c). Qed.

Lemma serializable_option_outcome (o : option Outcome) :
  serializable (of_option_outcome o).
Proof. intros e. destruct o; discriminate. Qed.

Lemma serializable_number (n : Js.number) : serializable (Js.Num n).
Proof. intros e. discriminate. Qed.

Create HintDb serializable.
#[local] Hint Resolve serializable_string serializable_option_string serializable_or
  serializable_cond serializable_option_outcome serializable_number : serializable.

Lemma empty_object_serializable : serializable (Js.Obj []).
Proof. intros e. discriminate. Qed.

Lemma envelope_serializes (this : AuditClient) (event : AuditEvent) :
  payload_serializable event ->
  exists text, Js.serialize (envelope this event) = Js.Text text.
Proof.
  intros Hp. unfold envelope. rewrite serialize_object.
  edestruct object_members_serializable as [ps ->]; [| eauto].
  repeat (apply Forall_cons; [cbn [snd]; auto with serializable |]).
  - apply serializable_or; [exact Hp | apply empty_object_serializable].
  - apply Forall_nil.
Qed.

Lemma object_members_raise (pre post : Js.object) (k : string) (x : Js.value)
    (e : Js.exn) :
  Forall (fun kv => serializable (snd kv)) pre ->
  Js.serialize x = Js.Raised e ->
  object_members (pre ++ (k, x) :: post)%list = inl e.
Proof.
  intros Hpre Hx. induction Hpre as [| [k' x'] rest Hx' _ IH]; cbn [app object_members].
  - now rewrite Hx.
  - cbn [snd] in Hx'. rewrite IH.
    destruct (Js.serialize x') as [t | | e'] eqn:E; try reflexivity.
    now elim (Hx' e').
Qed.

Lemma envelope_raises_from_payload (this : AuditClient) (event : AuditEvent) (e : Js.exn) :
  Js.serialize (Js.of_option_object (payload event)) = Js.Raised e ->
  Js.serialize (envelope this event) = Js.Raised e.
Proof.
  intros Hp. unfold envelope. rewrite serialize_object.
  assert (Hor : Js.serialize (Js.or (Js.of_option_object (payload event)) (Js.Obj []))
                = Js.Raised e).
  { destruct (payload event); [exact Hp | discriminate Hp]. }
  match goal with
  | |- context [object_members ?l] =>
      change l with (firstn 10 l ++ ("payload",
        Js.or (Js.of_option_object (payload event)) (Js.Obj [])) :: [])%list
  end.
  rewrite (object_members_raise _ _ _ _ e); [reflexivity | | exact Hor].
  cbn [firstn].
  repeat (apply Forall_cons; [cbn [snd]; auto with serializable |]).
  apply Forall_nil.
Qed.

(** ** The runs of [logEvent] *)

Lemma logEvent_run_spec (this : AuditClient) (event : AuditEvent) (w : World) :
  logEvent_run this event w (logEvent this event w).
Proof.
  unfold logEvent, bind, JSON_stringify, Date_toISOString.
  destruct (Js.serialize (envelope this event)) as [text | | e] eqn:E.
  - unfold ret at 1. cbn iota beta.
    unfold try_catch, bind, await_fetch, console_error, ret.
    destruct (network w (audit_request this (now w) (Some text))) as [r | e] eqn:N.
    + now apply run_answered.
    + now apply run_transport_failed.
  - now elim (serialize_object_not_omitted _ E).
  - now apply run_unserializable.
Qed.

Ltac logEvent_cases this event w :=
  unfold effects, result;
  let e := fresh "e" in
  let text := fresh "text" in
  let r := fresh "r" in
  let Hser := fresh "Hser" in
  let Hnet := fresh "Hnet" in
  destruct (logEvent_run_spec this event w)
    as [e Hser | text r Hser Hnet | text e Hser Hnet];
  cbn [fst snd requests diagnostics].

(** C4: when the call completes with a response, [logEvent] returns whether
    the status lies in 200 to 299: [true] exactly then, [false] for any other
    status.  The response is arbitrary but for its status, so neither its
    body nor anything else of it has a say. *)
Theorem logEvent_returns_status_class (this : AuditClient) (event : AuditEvent)
    (w : World) (req : Request) (r : Response) :
  In (Fetched req (Resolved r)) (effects (logEvent this event) w) ->
  result (logEvent this event) w
    = Returned ((200 <=? status r)%Z && (status r <=? 299)%Z)
  /\ (result (logEvent this event) w = Returned true
      <-> (200 <= status r <= 299)%Z)
  /\ (result (logEvent this event) w = Returned false
      <-> ~ (200 <= status r <= 299)%Z).
Proof.
  logEvent_cases this event w; intros Hin.
  - destruct Hin.
  - destruct Hin as [Heq | []]. injection Heq as _ ->.
    unfold ok. generalize (status r). intros z.
    split; [reflexivity |].
    destruct (Z.leb_spec 200 z), (Z.leb_spec z 299);
      cbn [andb]; split; split; intros Hres;
      try discriminate Hres; try reflexivity; lia.
  - destruct Hin as [Heq | [Heq | []]]; discriminate Heq.
Qed.

Lemma logEvent_returns_status_class_witness :
  result (logEvent client0 bare_event) (gateway 201) = Returned true
  /\ result (logEvent client0 bare_event) (gateway 500) = Returned false.
Proof.
  split.
  - eapply (fun req H => proj1 (logEvent_returns_status_class client0 bare_event
                                  (gateway 201) req (answer 201) H)).
    left. reflexivity.
  - eapply (fun req H => proj1 (logEvent_returns_status_class client0 bare_event
                                  (gateway 500) req (answer 500) H)).
    left. reflexivity.
Defined.

(** ** What goes on the wire *)

(** C7, as stated, fails: for a request whose payload holds a BigInt no POST
    is issued at all. *)
Lemma unserializable_event_is_not_posted :
  requests (effects (logEvent client0 unserializable_event) (gateway 200)) = [].
Proof. reflexivity. Qed.

(** C7, amended: for every request whose envelope [JSON.stringify] turns into
    text, [logEvent] issues exactly one request: a POST to
    [{gatewayUrl}/api/v1/audit/events] with the headers [Content-Type:
    application/json], [X-Service-Name] (the configured service name) and
    [X-Service-Timestamp] (the timestamp read at call time), and that text as
    the body. *)
Theorem logEvent_posts_envelope_once (this : AuditClient) (event : AuditEvent)
    (w : World) (text : string) :
  Js.serialize (envelope this event) = Js.Text text ->
  requests (effects (logEvent this event) w)
  = [ {| url := gatewayUrl this ++ "/api/v1/audit/events";
         method := "POST";
         headers := [ ("Content-Type", "application/json");
                      ("X-Service-Name", serviceName this);
                      ("X-Service-Timestamp", now w) ];
         body := Some text |} ].
Proof.
  intros Htext. logEvent_cases this event w.
  - congruence.
  - assert (text0 = text) as -> by congruence. reflexivity.
  - assert (text0 = text) as -> by congruence. reflexivity.
Qed.

Lemma logEvent_posts_envelope_once_witness :
  requests (effects (logEvent client0 bare_event) offline)
  = [ {| url := "http://localhost:8000/api/v1/audit/events";
         method := "POST";
         headers := [ ("Content-Type", "application/json");
                      ("X-Service-Name", "smsly-frontend");
                      ("X-Service-Timestamp", "2024-05-01T12:00:01.250Z") ];
         body := Some bare_event_json |} ].
Proof.
  apply (logEvent_posts_envelope_once client0 bare_event offline bare_event_json).
  vm_compute. reflexivity.
Defined.

(** C8: two calls with the same request and the same client put the same
    envelope on the wire, whatever the clock reads and however the network
    behaves: the requests sent agree in everything but the timestamp header,
    and each body is the JSON text of [envelope this event], a value computed
    from the client and the request alone. *)
Theorem logEvent_envelope_deterministic (this : AuditClient) (event : AuditEvent)
    (w1 w2 : World) :
  map (without_header "X-Service-Timestamp") (requests (effects (logEvent this event) w1))
  = map (without_header "X-Service-Timestamp") (requests (effects (logEvent this event) w2))
  /\ (forall w req, In req (requests (effects (logEvent this event) w)) ->
        exists text, body req = Some text
                     /\ Js.serialize (envelope this event) = Js.Text text).
Proof.
  split.
  - unfold effects.
    destruct (logEvent_run_spec this event w1) as [e1 S1 | t1 r1 S1 N1 | t1 e1 S1 N1];
    destruct (logEvent_run_spec this event w2) as [e2 S2 | t2 r2 S2 N2 | t2 e2 S2 N2];
    cbn [fst requests map]; try congruence;
    assert (t1 = t2) as -> by congruence; reflexivity.
  - intros w req. logEvent_cases this event w; intros Hin.
    + destruct Hin.
    + destruct Hin as [<- | []]. eexists. split; [reflexivity | eassumption].
    + destruct Hin as [<- | []]. eexists. split; [reflexivity | eassumption].
Qed.

(** ** Failures *)

(** A payload [JSON.stringify] throws on makes the whole call throw, before
    anything is sent or printed. *)
Lemma logEvent_throws_with_payload (this : AuditClient) (event : AuditEvent)
    (w : World) (e : Js.exn) :
  Js.serialize (Js.of_option_object (payload event)) = Js.Raised e ->
  logEvent this event w = ([], Thrown e).
Proof.
  intros Hp. apply (envelope_raises_from_payload this) in Hp.
  destruct (logEvent_run_spec this event w) as [e' S | t r S N | t e' S N];
    congruence.
Qed.

(** C2 fails on the code: [JSON.stringify] runs before the [try] block, so a
    payload it cannot serialize makes [logEvent] reject, with nothing sent and
    nothing reported; [logUserAction] and [logError], which pass their
    argument on as the payload, reject with it. *)
Theorem logEvent_rejects_unserializable_payload (w : World) :
  logEvent client0 unserializable_event w
  = ([], Thrown (Js.TypeError "Do not know how to serialize a BigInt"))
  /\ logUserAction client0 "click" "u1" (Some [("n", Js.BigInt 1)]) w
  = ([], Thrown (Js.TypeError "Do not know how to serialize a BigInt"))
  /\ logError client0 "boom" (Some [("n", Js.BigInt 1)]) w
  = ([], Thrown (Js.TypeError "Do not know how to serialize a BigInt")).
Proof. repeat split. Qed.

Lemma serializes_spec (v : Js.value) : serializes v = true -> serializable v.
Proof.
  unfold serializes, serializable. intros H e He. rewrite He in H. discriminate H.
Qed.

(** With a payload that serializes, a call always returns a boolean, and a
    transport failure is reported and turned into [false]. *)
Lemma logEvent_returns (this : AuditClient) (event : AuditEvent) (w : World) :
  payload_serializable event ->
  exists b, result (logEvent this event) w = Returned b
    /\ (forall req e, In (Fetched req (Failed e)) (effects (logEvent this event) w) ->
          b = false
          /\ diagnostics (effects (logEvent this event) w) = [("Audit failed:", e)]).
Proof.
  intros Hp. destruct (envelope_serializes this event Hp) as [text Htext].
  logEvent_cases this event w.
  - congruence.
  - exists (ok r). split; [reflexivity |].
    intros req e' [Heq | []]. discriminate Heq.
  - exists false. split; [reflexivity |].
    intros req e' [Heq | [Heq | []]]; [| discriminate Heq].
    injection Heq as _ ->. split; reflexivity.
Qed.

(** X1: Outside the unserializable payloads [logEvent] is total: it returns a
    boolean, and when the transport fails that boolean is [false] and the
    failure is printed with [console.error]. *)
Theorem logEvent_total_on_serializable_payload (this : AuditClient)
    (event : AuditEvent) (w : World) :
  serializes (Js.of_option_object (payload event)) = true ->
  exists b, result (logEvent this event) w = Returned b
    /\ (forall req e, In (Fetched req (Failed e)) (effects (logEvent this event) w) ->
          b = false
          /\ diagnostics (effects (logEvent this event) w) = [("Audit failed:", e)]).
Proof. intros H. apply logEvent_returns. now apply serializes_spec. Qed.

Lemma logEvent_total_on_serializable_payload_witness :
  exists b, result (logEvent client0 bare_event) offline = Returned b
    /\ (forall req e,
          In (Fetched req (Failed e)) (effects (logEvent client0 bare_event) offline) ->
          b = false
          /\ diagnostics (effects (logEvent client0 bare_event) offline)
             = [("Audit failed:", e)]).
Proof.
  apply (logEvent_total_on_serializable_payload client0 bare_event offline).
  reflexivity.
Defined.

(** X2: The convenience methods that build their payload themselves always return
    a boolean. *)
Theorem fixed_payload_methods_return (this : AuditClient) (w : World) :
  (forall page userId, exists b, result (logPageView this page userId) w = Returned b)
  /\ (forall userId flag ip,
        exists b, result (logLogin this userId flag ip) w = Returned b)
  /\ (forall endpoint method statusCode userId,
        exists b, result (logApiCall this endpoint method statusCode userId) w
                  = Returned b).
Proof.
  repeat apply conj; intros.
  - edestruct logEvent_returns as [b [Hb _]]; [| exists b; exact Hb].
    intros e. discriminate.
  - edestruct logEvent_returns as [b [Hb _]]; [| exists b; exact Hb].
    intros e. cbn. destruct ip; discriminate.
  - edestruct logEvent_returns as [b [Hb _]]; [| exists b; exact Hb].
    intros e. cbn. discriminate.
Qed.

(** ** Convenience methods *)

(** C9: [logPageView(page, userId)] is [logEvent] on the request with
    [resource_type] "page" and [resource_id] the page, [event_type]
    "page.view", [action] "view", [category] "general" and [actor_id] the
    user id; the envelope carries the page as its resource. *)
Theorem logPageView_delegates (this : AuditClient) (page : string)
    (userId : option string) :
  exists event,
    logPageView this page userId = logEvent this event
    /\ resource_type event = Some "page"
    /\ resource_id event = Some page
    /\ event_type event = "page.view"
    /\ action event = "view"
    /\ category event = Some "general"
    /\ actor_id event = userId
    /\ outcome event = None /\ severity event = None /\ payload event = None
    /\ Js.get "resource_type" (envelope this event) = Js.Str "page"
    /\ Js.get "resource_id" (envelope this event) = Js.Str page
    /\ Js.get "event_type" (envelope this event) = Js.Str "page.view"
    /\ Js.get "action" (envelope this event) = Js.Str "view"
    /\ Js.get "event_category" (envelope this event) = Js.Str "general".
Proof. eexists. split; [reflexivity |]. cbn. repeat split. Qed.

(** C6: [logLogin(userId, success, ip)] is [logEvent] on the request with
    [event_type] "auth.login", [category] "auth", [actor_id] the user id and
    payload [{ip}]; [outcome] and [severity] are "success" and "info" when the
    flag is true, "failure" and "warning" when it is false. *)
Theorem logLogin_delegates (this : AuditClient) (userId : string) (flag : bool)
    (ip : option string) :
  exists event,
    logLogin this userId flag ip = logEvent this event
    /\ event_type event = "auth.login"
    /\ category event = Some "auth"
    /\ actor_id event = Some userId
    /\ payload event = Some [("ip", Js.of_option_string ip)]
    /\ action event = "login"
    /\ resource_type event = None /\ resource_id event = None
    /\ (flag = true ->
          outcome event = Some success /\ severity event = Some "info"
          /\ Js.get "outcome" (envelope this event) = Js.Str "success"
          /\ Js.get "severity" (envelope this event) = Js.Str "info")
    /\ (flag = false ->
          outcome event = Some failure /\ severity event = Some "warning"
          /\ Js.get "outcome" (envelope this event) = Js.Str "failure"
          /\ Js.get "severity" (envelope this event) = Js.Str "warning")
    /\ Js.get "event_type" (envelope this event) = Js.Str "auth.login"
    /\ Js.get "event_category" (envelope this event) = Js.Str "auth"
    /\ Js.get "payload" (envelope this event) = Js.Obj [("ip", Js.of_option_string ip)].
Proof.
  eexists. split; [reflexivity |]. cbn.
  repeat apply conj; try reflexivity; intros ->; repeat split.
Qed.

(** C5: [logApiCall(endpoint, method, statusCode, userId)] is [logEvent] on
    the request with [event_type] "api.call", [action] "{method} {endpoint}",
    [resource_type] "api", [resource_id] the endpoint, payload
    [{status_code: statusCode}] and [outcome] "success" if [statusCode < 400],
    "failure" otherwise. *)
Theorem logApiCall_delegates (this : AuditClient) (endpoint method : string)
    (statusCode : Js.number) (userId : option string) :
  exists event,
    logApiCall this endpoint method statusCode userId = logEvent this event
    /\ event_type event = "api.call"
    /\ action event = method ++ " " ++ endpoint
    /\ resource_type event = Some "api"
    /\ resource_id event = Some endpoint
    /\ payload event = Some [("status_code", Js.Num statusCode)]
    /\ outcome event
       = Some (if Js.lt statusCode (Js.Finite 400) then success else failure)
    /\ actor_id event = userId
    /\ category event = None /\ severity event = None
    /\ (forall code, statusCode = Js.Finite code ->
          ((code < 400)%Z -> outcome event = Some success)
          /\ ((400 <= code)%Z -> outcome event = Some failure))
    /\ Js.get "outcome" (envelope this event)
       = Js.Str (if Js.lt statusCode (Js.Finite 400) then "success" else "failure")
    /\ Js.get "action" (envelope this event) = Js.Str (method ++ " " ++ endpoint)
    /\ Js.get "resource_type" (envelope this event) = Js.Str "api"
    /\ Js.get "resource_id" (envelope this event) = Js.Str endpoint
    /\ Js.get "payload" (envelope this event)
       = Js.Obj [("status_code", Js.Num statusCode)].
Proof.
  eexists. split; [reflexivity |].
  cbn [event_type action resource_type resource_id payload outcome actor_id
       category severity].
  repeat apply conj; try reflexivity.
  - intros code ->. cbn [Js.lt]. split; intros Hc.
    + apply Z.ltb_lt in Hc. now rewrite Hc.
    + apply Z.ltb_ge in Hc. now rewrite Hc.
  - rewrite get_outcome. cbn [outcome of_option_outcome].
    now destruct (Js.lt statusCode (Js.Finite 400)).
Qed.

(** ** The spec's sample calls *)

Example logLogin_failure_envelope :
  requests (effects (logLogin client0 "u1" false None) (gateway 200))
  = [ audit_request client0 "2024-05-01T12:00:00.000Z"
        (Some (Js.join EmptyString
          [ "{"; Js.quote "service"; ":"; Js.quote "smsly-frontend"; ",";
            Js.quote "event_type"; ":"; Js.quote "auth.login"; ",";
            Js.quote "event_category"; ":"; Js.quote "auth"; ",";
            Js.quote "severity"; ":"; Js.quote "warning"; ",";
            Js.quote "action"; ":"; Js.quote "login"; ",";
            Js.quote "actor_id"; ":"; Js.quote "u1"; ",";
            Js.quote "actor_type"; ":"; Js.quote "user"; ",";
            Js.quote "outcome"; ":"; Js.quote "failure"; ",";
            Js.quote "payload"; ":{}}" ])) ].
Proof. reflexivity. Qed.

Example logApiCall_404_envelope :
  let e := envelope client0
             {| event_type := "api.call"; action := "GET /foo";
                actor_id := Some "u2"; resource_type := Some "api";
                resource_id := Some "/foo"; outcome := Some failure;
                category := None; severity := None;
                payload := Some [("status_code", Js.Num (Js.Finite 404))] |} in
  logApiCall client0 "/foo" "GET" (Js.Finite 404) (Some "u2")
  = logEvent client0
      {| event_type := "api.call"; action := "GET /foo";
         actor_id := Some "u2"; resource_type := Some "api";
         resource_id := Some "/foo"; outcome := Some failure;
         category := None; severity := None;
         payload := Some [("status_code", Js.Num (Js.Finite 404))] |}
  /\ Js.get "outcome" e = Js.Str "failure"
  /\ Js.get "actor_id" e = Js.Str "u2"
  /\ Js.get "actor_type" e = Js.Str "user"
  /\ Js.get "event_category" e = Js.Str "general".
Proof. repeat split. Qed.

Example logEvent_offline :
  logEvent client0 bare_event offline
  = ([ Fetched (audit_request client0 (now offline) (Some bare_event_json))
         (Failed (Js.TypeError "Failed to fetch"));
       ConsoleError "Audit failed:" (Js.TypeError "Failed to fetch") ],
     Returned false).
Proof. reflexivity. Qed.

Example constructor_reads_environment :
  constructor (fun name => if (name =? "NEXT_PUBLIC_SERVICE_NAME")%string
                           then Some "smsly-desktop-app" else Some EmptyString)
  = {| gatewayUrl := "http://localhost:8000"; serviceName := "smsly-desktop-app" |}.
Proof. reflexivity. Qed.

(** * Further properties *)

(** ** The constructor *)

Lemma env_or_cases (env : string -> option string) (name fallback : string) :
  (forall s, env name = Some s -> s <> EmptyString -> env_or env name fallback = s)
  /\ (env name = None \/ env name = Some EmptyString -> env_or env name fallback = fallback).
Proof.
  unfold env_or. split.
  - intros s -> Hs. apply String.eqb_neq in Hs. now rewrite Hs.
  - intros [-> | ->]; reflexivity.
Qed.

Lemma env_or_not_empty (env : string -> option string) (name fallback : string) :
  fallback <> EmptyString -> env_or env name fallback <> EmptyString.
Proof.
  intros Hf. unfold env_or. destruct (env name) as [s |]; [| exact Hf].
  destruct (s =? EmptyString)%string eqn:E; [exact Hf |].
  now apply String.eqb_neq.
Qed.

(** X3: Whatever the environment holds, the client is built with a gateway URL
    and a service name that are not empty: a variable that is set and not
    empty is taken as it is, one that is unset or empty gives way to
    [http://localhost:8000], respectively [smsly-frontend]. *)
Theorem constructor_fallbacks (env : string -> option string) :
  gatewayUrl (constructor env) <> EmptyString
  /\ serviceName (constructor env) <> EmptyString
  /\ (forall s, env "NEXT_PUBLIC_GATEWAY_URL" = Some s -> s <> EmptyString ->
        gatewayUrl (constructor env) = s)
  /\ (env "NEXT_PUBLIC_GATEWAY_URL" = None
      \/ env "NEXT_PUBLIC_GATEWAY_URL" = Some EmptyString ->
        gatewayUrl (constructor env) = "http://localhost:8000")
  /\ (forall s, env "NEXT_PUBLIC_SERVICE_NAME" = Some s -> s <> EmptyString ->
        serviceName (constructor env) = s)
  /\ (env "NEXT_PUBLIC_SERVICE_NAME" = None
      \/ env "NEXT_PUBLIC_SERVICE_NAME" = Some EmptyString ->
        serviceName (constructor env) = "smsly-frontend").
Proof.
  cbn [constructor gatewayUrl serviceName]. repeat apply conj.
  - apply env_or_not_empty. discriminate.
  - apply env_or_not_empty. discriminate.
  - apply env_or_cases.
  - apply env_or_cases.
  - apply env_or_cases.
  - apply env_or_cases.
Qed.

(** ** The result and the diagnostics of [logEvent] *)

(** X4: [logEvent] returns [true] exactly when its request was answered with a
    status from 200 to 299; a rejection by the gateway and a transport
    failure both come back as [false]. *)
Theorem logEvent_true_iff_accepted (this : AuditClient) (event : AuditEvent)
    (w : World) :
  (result (logEvent this event) w = Returned true
   <-> exists req r, In (Fetched req (Resolved r)) (effects (logEvent this event) w)
                     /\ (200 <= status r <= 299)%Z)
  /\ (result (logEvent this event) w = Returned false
      <-> (exists req e, In (Fetched req (Failed e)) (effects (logEvent this event) w))
          \/ (exists req r, In (Fetched req (Resolved r)) (effects (logEvent this event) w)
                            /\ ~ (200 <= status r <= 299)%Z)).
Proof.
  assert (Hok : forall r, ok r = true <-> (200 <= status r <= 299)%Z).
  { intros r. unfold ok. rewrite andb_true_iff, !Z.leb_le. reflexivity. }
  logEvent_cases this event w.
  - split; split.
    + discriminate.
    + intros (req & r & [] & _).
    + discriminate.
    + intros [(req & e' & []) | (req & r & [] & _)].
  - split; split.
    + intros H. injection H as H. do 2 eexists. split; [left; reflexivity |].
      now apply Hok.
    + intros (req & r' & [Heq | []] & Hr). injection Heq as _ ->.
      f_equal. now apply Hok.
    + intros H. injection H as H. right. do 2 eexists.
      split; [left; reflexivity |]. rewrite <- Hok. now rewrite H.
    + intros [(req & e' & [Heq | []]) | (req & r' & [Heq | []] & Hr)].
      * discriminate Heq.
      * injection Heq as _ ->. f_equal.
        destruct (ok r') eqn:E; [| reflexivity]. now apply Hok in E.
  - split; split.
    + discriminate.
    + intros (req & r & [Heq | [Heq | []]] & _); discriminate Heq.
    + intros _. left. do 2 eexists. left. reflexivity.
    + reflexivity.
Qed.

(** X5: One call sends at most one request and prints at most one diagnostic:
    nothing is retried.  A diagnostic is printed when, and only when, the
    request failed in transport; an answer of the gateway, whatever its
    status, prints nothing. *)
Theorem logEvent_single_attempt (this : AuditClient) (event : AuditEvent) (w : World) :
  (length (requests (effects (logEvent this event) w)) <= 1)%nat
  /\ (forall req e, In (Fetched req (Failed e)) (effects (logEvent this event) w) ->
        diagnostics (effects (logEvent this event) w) = [("Audit failed:", e)])
  /\ (forall req r, In (Fetched req (Resolved r)) (effects (logEvent this event) w) ->
        diagnostics (effects (logEvent this event) w) = [])
  /\ (forall d, In d (diagnostics (effects (logEvent this event) w)) ->
        exists req, In (Fetched req (Failed (snd d))) (effects (logEvent this event) w)
                    /\ fst d = "Audit failed:").
Proof.
  logEvent_cases this event w; repeat apply conj; cbn [length]; try lia.
  - intros req e' [].
  - intros req r [].
  - intros d [].
  - intros req e' [Heq | []]. discriminate Heq.
  - reflexivity.
  - intros d [].
  - intros req e' [Heq | [Heq | []]]; [| discriminate Heq].
    now injection Heq as _ ->.
  - intros req r' [Heq | [Heq | []]]; discriminate Heq.
  - intros d [<- | []]. eexists. split; [left; reflexivity | reflexivity].
Qed.

(** ** The text of the body *)

Lemma or_default_string (o : option string) (d : string) :
  d <> EmptyString ->
  Js.or (Js.of_option_string o) (Js.Str d) = Js.Str (default_string o d).
Proof.
  intros Hd. destruct o as [s |]; [| reflexivity].
  unfold Js.or, default_string. cbn [Js.of_option_string Js.truthy].
  now destruct (s =? EmptyString)%string.
Qed.

Lemma or_outcome (o : option Outcome) :
  Js.or (of_option_outcome o) (Js.Str "success")
  = Js.Str (match o with Some x => Outcome_string x | None => "success" end).
Proof. destruct o as [[] |]; reflexivity. Qed.

Lemma cond_actor_type (o : option string) :
  Js.cond (Js.of_option_string o) (Js.Str "user") (Js.Str "system")
  = Js.Str (if Js.truthy (Js.of_option_string o) then "user" else "system").
Proof. unfold Js.cond. now destruct (Js.truthy (Js.of_option_string o)). Qed.

Lemma envelope_text (this : AuditClient) (event : AuditEvent) (p : string) :
  Js.serialize (Js.or (Js.of_option_object (payload event)) (Js.Obj [])) = Js.Text p ->
  Js.serialize (envelope this event) = Js.Text (body_text this event p).
Proof.
  intros Hp. unfold envelope. rewrite serialize_object.
  rewrite !or_default_string by discriminate.
  rewrite or_outcome, cond_actor_type.
  unfold body_text, body_members.
  destruct (resource_type event) as [rt |], (resource_id event) as [ri |];
    cbn [object_members Js.serialize Js.of_option_string optional_member app];
    rewrite Hp; reflexivity.
Qed.

Lemma logEvent_bodies (this : AuditClient) (event : AuditEvent) (w : World)
    (p : string) :
  Js.serialize (Js.or (Js.of_option_object (payload event)) (Js.Obj [])) = Js.Text p ->
  map body (requests (effects (logEvent this event) w))
  = [Some (body_text this event p)].
Proof.
  intros Hp. apply (envelope_text this) in Hp.
  logEvent_cases this event w; cbn [map body audit_request]; congruence.
Qed.

(** X6: The body of the request is a JSON object with the members [service],
    [event_type], [event_category], [severity], [action], [actor_id],
    [actor_type], [outcome] and [payload], in this order and with the
    defaults filled in; [resource_type] and [resource_id] stand between
    [actor_type] and [outcome] when the request has them and are left out,
    not sent as null, when it has not. *)
Theorem logEvent_body_text (this : AuditClient) (event : AuditEvent) (w : World)
    (p : string) :
  Js.serialize (Js.or (Js.of_option_object (payload event)) (Js.Obj [])) = Js.Text p ->
  map body (requests (effects (logEvent this event) w))
  = [Some ("{" ++ Js.join ","
      ([ member "service" (Js.quote (serviceName this));
         member "event_type" (Js.quote (event_type event));
         member "event_category" (Js.quote (default_string (category event) "general"));
         member "severity" (Js.quote (default_string (severity event) "info"));
         member "action" (Js.quote (action event));
         member "actor_id" (Js.quote (default_string (actor_id event) "anonymous"));
         member "actor_type"
           (Js.quote (if Js.truthy (Js.of_option_string (actor_id event))
                      then "user" else "system")) ]
       ++ optional_member "resource_type" (resource_type event)
       ++ optional_member "resource_id" (resource_id event)
       ++ [ member "outcome"
              (Js.quote (match outcome event with
                         | Some o => Outcome_string o
                         | None => "success"
                         end));
            member "payload" p ])%list ++ "}")].
Proof. apply logEvent_bodies. Qed.

Lemma logEvent_body_text_witness :
  map body (requests (effects (logEvent client0 (with_actor "u1" bare_event)) offline))
  = [Some (Js.join EmptyString
      [ "{"; member "service" (Js.quote "smsly-frontend");
        ","; member "event_type" (Js.quote "test.event");
        ","; member "event_category" (Js.quote "general");
        ","; member "severity" (Js.quote "info");
        ","; member "action" (Js.quote "test");
        ","; member "actor_id" (Js.quote "u1");
        ","; member "actor_type" (Js.quote "user");
        ","; member "outcome" (Js.quote "success");
        ","; member "payload" "{}"; "}" ])].
Proof.
  apply (logEvent_body_text client0 (with_actor "u1" bare_event) offline "{}").
  reflexivity.
Defined.

(** ** What the convenience methods put on the wire *)

(** X7: A login sends one request whose body names the event [auth.login] in
    category [auth], with severity [info] and outcome [success] for a
    successful login, [warning] and [failure] otherwise; it has no resource
    members; the payload holds [ip] when it was given and is the empty object
    when it was not; an empty user id is sent as [anonymous], of type
    [system]. *)
Theorem logLogin_body (this : AuditClient) (userId : string) (flag : bool)
    (ip : option string) (w : World) :
  map body (requests (effects (logLogin this userId flag ip) w))
  = [Some ("{" ++ Js.join ","
      [ member "service" (Js.quote (serviceName this));
        member "event_type" (Js.quote "auth.login");
        member "event_category" (Js.quote "auth");
        member "severity" (Js.quote (if flag then "info" else "warning"));
        member "action" (Js.quote "login");
        member "actor_id"
          (Js.quote (if (userId =? EmptyString)%string then "anonymous" else userId));
        member "actor_type"
          (Js.quote (if (userId =? EmptyString)%string then "system" else "user"));
        member "outcome" (Js.quote (if flag then "success" else "failure"));
        member "payload" ("{" ++ Js.join "," (optional_member "ip" ip) ++ "}") ]
      ++ "}")].
Proof.
  unfold logLogin.
  rewrite (logEvent_bodies _ _ _ ("{" ++ Js.join "," (optional_member "ip" ip) ++ "}"))
    by (destruct ip; reflexivity).
  unfold body_text, body_members, default_string.
  cbn [event_type action actor_id resource_type resource_id outcome category
       severity payload optional_member app Js.of_option_string Js.truthy].
  destruct flag, (userId =? EmptyString)%string; reflexivity.
Qed.


(** X9: A page view sends one request whose body names the event [page.view]
    with action [view] on the resource [page] / the page, in category
    [general] with the default severity and outcome and an empty payload; a
    missing or empty user id is sent as [anonymous], of type [system]. *)
Theorem logPageView_body (this : AuditClient) (page : string)
    (userId : option string) (w : World) :
  map body (requests (effects (logPageView this page userId) w))
  = [Some ("{" ++ Js.join ","
      [ member "service" (Js.quote (serviceName this));
        member "event_type" (Js.quote "page.view");
        member "event_category" (Js.quote "general");
        member "severity" (Js.quote "info");
        member "action" (Js.quote "view");
        member "actor_id" (Js.quote (default_string userId "anonymous"));
        member "actor_type"
          (Js.quote (if Js.truthy (Js.of_option_string userId) then "user" else "system"));
        member "resource_type" (Js.quote "page");
        member "resource_id" (Js.quote page);
        member "outcome" (Js.quote "success");
        member "payload" "{}" ]
      ++ "}")]
  /\ (userId = None \/ userId = Some EmptyString ->
      default_string userId "anonymous" = "anonymous"
      /\ Js.truthy (Js.of_option_string userId) = false).
Proof.
  split; [| intros [-> | ->]; split; reflexivity].
  unfold logPageView. now rewrite (logEvent_bodies _ _ _ "{}") by reflexivity.
Qed.

(** X10: A user action whose details serialize to the text [p] (the empty object
    when there are none) sends one request whose body names the event
    [user.{action}] with that action, in category [general] with the default
    severity and outcome, no resource members, and [p] as the payload. *)
Theorem logUserAction_body (this : AuditClient) (act userId : string)
    (details : option Js.object) (w : World) (p : string) :
  Js.serialize (Js.Obj (context_props details)) = Js.Text p ->
  map body (requests (effects (logUserAction this act userId details) w))
  = [Some ("{" ++ Js.join ","
      [ member "service" (Js.quote (serviceName this));
        member "event_type" (Js.quote ("user." ++ act));
        member "event_category" (Js.quote "general");
        member "severity" (Js.quote "info");
        member "action" (Js.quote act);
        member "actor_id"
          (Js.quote (if (userId =? EmptyString)%string then "anonymous" else userId));
        member "actor_type"
          (Js.quote (if (userId =? EmptyString)%string then "system" else "user"));
        member "outcome" (Js.quote "success");
        member "payload" p ]
      ++ "}")].
Proof.
  intros Hp. unfold logUserAction.
  rewrite (logEvent_bodies _ _ _ p) by (destruct details; exact Hp).
  unfold body_text, body_members, default_string.
  cbn [event_type action actor_id resource_type resource_id outcome category
       severity payload optional_member app Js.of_option_string Js.truthy].
  destruct (userId =? EmptyString)%string; reflexivity.
Qed.

Lemma logUserAction_body_witness :
  map body (requests (effects
    (logUserAction client0 "click" "u1" (Some [("button", Js.Str "save")])) (gateway 200)))
  = [Some (Js.join EmptyString
      [ "{"; member "service" (Js.quote "smsly-frontend");
        ","; member "event_type" (Js.quote "user.click");
        ","; member "event_category" (Js.quote "general");
        ","; member "severity" (Js.quote "info");
        ","; member "action" (Js.quote "click");
        ","; member "actor_id" (Js.quote "u1");
        ","; member "actor_type" (Js.quote "user");
        ","; member "outcome" (Js.quote "success");
        ","; member "payload" ("{" ++ member "button" (Js.quote "save") ++ "}");
        "}" ])].
Proof.
  apply (logUserAction_body client0 "click" "u1" (Some [("button", Js.Str "save")])
           (gateway 200) ("{" ++ member "button" (Js.quote "save") ++ "}")).
  reflexivity.
Defined.

(** ** Object spread, and the payload of [logError] *)

Lemma get_prop_set_prop (k k' : string) (v : Js.value) (o : Js.object) :
  Js.get_prop k' (Js.set_prop k v o)
  = if (k' =? k)%string then v else Js.get_prop k' o.
Proof.
  induction o as [| [k0 v0] rest IH]; cbn [Js.set_prop Js.get_prop].
  - reflexivity.
  - destruct (k =? k0)%string eqn:E; cbn [Js.get_prop].
    + apply String.eqb_eq in E. subst k0.
      now destruct (k' =? k)%string.
    + rewrite IH. destruct (k' =? k0)%string eqn:E'; [| reflexivity].
      apply String.eqb_eq in E'. subst k0.
      now rewrite String.eqb_sym, E.
Qed.

Lemma has_key_set_prop (k k' : string) (v : Js.value) (o : Js.object) :
  has_key k' (Js.set_prop k v o) = ((k' =? k)%string || has_key k' o)%bool.
Proof.
  induction o as [| [k0 v0] rest IH]; cbn [Js.set_prop has_key existsb fst].
  - rewrite !orb_false_r. apply String.eqb_sym.
  - destruct (k =? k0)%string eqn:E; cbn [has_key existsb fst].
    + apply String.eqb_eq in E. subst k0.
      rewrite (String.eqb_sym k k'). now destruct (k' =? k)%string.
    + fold (has_key k' (Js.set_prop k v rest)). rewrite IH.
      fold (has_key k' rest).
      now destruct (k0 =? k')%string, (k' =? k)%string.
Qed.

Lemma distinct_keys_set_prop (k : string) (v : Js.value) (o : Js.object) :
  distinct_keys o = true -> distinct_keys (Js.set_prop k v o) = true.
Proof.
  induction o as [| [k0 v0] rest IH]; cbn [Js.set_prop distinct_keys]; [reflexivity |].
  rewrite andb_true_iff, negb_true_iff. intros [Hk Hrest].
  destruct (k =? k0)%string eqn:E; cbn [distinct_keys].
  - apply String.eqb_eq in E. subst k0. now rewrite Hk, Hrest.
  - rewrite has_key_set_prop, Hk, (IH Hrest), String.eqb_sym, E. reflexivity.
Qed.

Lemma has_key_false_get_prop (k : string) (o : Js.object) :
  has_key k o = false -> Js.get_prop k o = Js.Undefined.
Proof.
  induction o as [| [k0 v0] rest IH]; cbn [has_key existsb fst Js.get_prop];
    [reflexivity |].
  rewrite orb_false_iff, String.eqb_sym. intros [-> H]. now apply IH.
Qed.

Section Spread.
Variable src_k : string.

Lemma has_key_spread (src base : Js.object) :
  has_key src_k (Js.spread base src) = (has_key src_k base || has_key src_k src)%bool.
Proof.
  revert base. induction src as [| [k v] rest IH]; intros base; unfold Js.spread;
    cbn [fold_left fst snd].
  - cbn [has_key existsb]. now rewrite orb_false_r.
  - fold (Js.spread (Js.set_prop k v base) rest). rewrite IH, has_key_set_prop.
    cbn [has_key existsb fst]. fold (has_key src_k rest) (has_key src_k base).
    rewrite (String.eqb_sym k src_k).
    now destruct (src_k =? k)%string, (has_key src_k base), (has_key src_k rest).
Qed.

Lemma get_prop_spread (src base : Js.object) :
  distinct_keys src = true ->
  Js.get_prop src_k (Js.spread base src)
  = if has_key src_k src then Js.get_prop src_k src else Js.get_prop src_k base.
Proof.
  revert base. induction src as [| [k v] rest IH]; intros base; unfold Js.spread;
    cbn [fold_left fst snd distinct_keys]; [reflexivity |].
  rewrite andb_true_iff, negb_true_iff. intros [Hk Hrest].
  fold (Js.spread (Js.set_prop k v base) rest). rewrite (IH _ Hrest), get_prop_set_prop.
  cbn [has_key existsb fst Js.get_prop]. fold (has_key src_k rest).
  rewrite (String.eqb_sym k src_k).
  destruct (src_k =? k)%string eqn:E; cbn [orb]; [| reflexivity].
  apply String.eqb_eq in E. subst k. now rewrite Hk.
Qed.
End Spread.

Lemma distinct_keys_spread (src base : Js.object) :
  distinct_keys base = true -> distinct_keys (Js.spread base src) = true.
Proof.
  revert base. induction src as [| [k v] rest IH]; intros base Hb; unfold Js.spread;
    cbn [fold_left fst snd]; [exact Hb |].
  apply IH. now apply distinct_keys_set_prop.
Qed.

(** X11: [logError(error, context)] hands [logEvent] the payload
    [{ error, ...context }]: an object with each name once, holding every
    property of the context, and under [error] the message unless the context
    has an [error] property of its own, which then replaces the message. *)
Theorem logError_payload (this : AuditClient) (error : string)
    (context : option Js.object) :
  distinct_keys (context_props context) = true ->
  exists event p,
    logError this error context = logEvent this event
    /\ payload event = Some p
    /\ distinct_keys p = true
    /\ Js.get_prop "error" p
       = (if has_key "error" (context_props context)
          then Js.get_prop "error" (context_props context)
          else Js.Str error)
    /\ (forall k, k <> "error" ->
          Js.get_prop k p = Js.get_prop k (context_props context))
    /\ (forall k, has_key k p
                  = ((k =? "error")%string || has_key k (context_props context))%bool).
Proof.
  intros Hc. do 2 eexists. split; [reflexivity |]. split; [reflexivity |].
  fold (context_props context). repeat apply conj.
  - now apply distinct_keys_spread.
  - now rewrite get_prop_spread.
  - intros k Hk. rewrite get_prop_spread by exact Hc.
    destruct (has_key k (context_props context)) eqn:E; [reflexivity |].
    cbn [Js.get_prop]. apply String.eqb_neq in Hk. rewrite Hk.
    symmetry. now apply has_key_false_get_prop.
  - intros k. rewrite has_key_spread. cbn [has_key existsb fst].
    now rewrite orb_false_r, String.eqb_sym.
Qed.

Lemma logError_payload_witness :
  exists event p,
    logError client0 "boom" (Some [("code", Js.Num (Js.Finite 7)); ("error", Js.Null)])
    = logEvent client0 event
    /\ payload event = Some p
    /\ distinct_keys p = true
    /\ Js.get_prop "error" p = Js.Null
    /\ (forall k, k <> "error" ->
          Js.get_prop k p
          = Js.get_prop k [("code", Js.Num (Js.Finite 7)); ("error", Js.Null)])
    /\ (forall k, has_key k p
                  = ((k =? "error")%string
                     || has_key k [("code", Js.Num (Js.Finite 7)); ("error", Js.Null)])%bool).
Proof.
  apply (logError_payload client0 "boom"
           (Some [("code", Js.Num (Js.Finite 7)); ("error", Js.Null)])).
  reflexivity.
Defined.



(** ** Methods that pass a caller's object on *)

Lemma serializable_object_values (props : Js.object) :
  serializable (Js.Obj props) -> Forall (fun kv => serializable (snd kv)) props.
Proof.
  unfold serializable at 1. setoid_rewrite serialize_object.
  induction props as [| [k x] rest IH]; intros H; [constructor |].
  cbn [object_members] in H. constructor.
  - cbn [snd]. intros e He. rewrite He in H. now elim (H e).
  - apply IH. intros e He.
    destruct (object_members rest) as [e' | ps]; [| discriminate He].
    injection He as ->.
    destruct (Js.serialize x) as [t | | e0].
    + now apply (H e).
    + now apply (H e).
    + now apply (H e0).
Qed.

Lemma serializable_values_object (props : Js.object) :
  Forall (fun kv => serializable (snd kv)) props -> serializable (Js.Obj props).
Proof.
  intros H e. rewrite serialize_object.
  destruct (object_members_serializable props H) as [ps ->]. discriminate.
Qed.

Lemma Forall_set_prop (P : string * Js.value -> Prop) (k : string) (v : Js.value)
    (o : Js.object) :
  P (k, v) -> Forall P o -> Forall P (Js.set_prop k v o).
Proof.
  intros Hv. induction 1 as [| [k0 v0] rest H0 Hrest IH]; cbn [Js.set_prop].
  - now repeat constructor.
  - destruct (k =? k0)%string; now constructor.
Qed.

Lemma Forall_spread (P : string * Js.value -> Prop) (src base : Js.object) :
  Forall P base -> Forall P src -> Forall P (Js.spread base src).
Proof.
  intros Hb Hs. revert base Hb.
  induction Hs as [| [k v] rest Hkv _ IH]; intros base Hb; unfold Js.spread;
    cbn [fold_left fst snd]; [exact Hb |].
  apply IH. now apply Forall_set_prop.
Qed.

Lemma serializable_context_props (o : option Js.object) :
  serializable (Js.of_option_object o) -> serializable (Js.Obj (context_props o)).
Proof.
  destruct o as [c |]; [trivial |]. intros _. apply empty_object_serializable.
Qed.

(** X13: [logUserAction] and [logError] pass an object of the caller on as (part
    of) the payload; whenever [JSON.stringify] can serialize that object they
    return a boolean, however the network behaves. *)
Theorem passed_on_object_methods_return (this : AuditClient) (w : World)
    (extra : option Js.object) :
  serializes (Js.of_option_object extra) = true ->
  (forall act userId,
     exists b, result (logUserAction this act userId extra) w = Returned b)
  /\ (forall error, exists b, result (logError this error extra) w = Returned b).
Proof.
  intros H. apply serializes_spec in H. split; intros.
  - edestruct logEvent_returns as [b [Hb _]]; [| exists b; exact Hb]. exact H.
  - edestruct logEvent_returns as [b [Hb _]]; [| exists b; exact Hb].
    unfold payload_serializable. cbn [payload Js.of_option_object].
    fold (context_props extra).
    apply serializable_values_object, Forall_spread.
    + repeat constructor. cbn [snd]. apply serializable_string.
    + now apply serializable_object_values, serializable_context_props.
Qed.

Lemma passed_on_object_methods_return_witness :
  (forall act userId,
     exists b, result (logUserAction client0 act userId
                         (Some [("code", Js.Num (Js.Finite 7))])) offline = Returned b)
  /\ (forall error,
        exists b, result (logError client0 error
                            (Some [("code", Js.Num (Js.Finite 7))])) offline = Returned b).
Proof.
  apply (passed_on_object_methods_return client0 offline
           (Some [("code", Js.Num (Js.Finite 7))])).
  reflexivity.
Defined.

(** ** Fields that are never empty *)

Lemma default_string_not_empty (o : option string) (d : string) :
  d <> EmptyString -> default_string o d <> EmptyString.
Proof.
  intros Hd. unfold default_string. destruct o as [s |]; [| exact Hd].
  destruct (s =? EmptyString)%string eqn:E; [exact Hd |].
  now apply String.eqb_neq.
Qed.

(** X14: Whatever the request holds, the envelope's [event_category], [severity],
    [actor_id], [actor_type] and [outcome] are strings that are not empty,
    and its [payload] is an object; [event_type] and [action] are passed on as
    they are, empty or not. *)
Theorem envelope_defaulted_fields_not_empty (this : AuditClient) (event : AuditEvent) :
  (forall k, In k ["event_category"; "severity"; "actor_id"; "actor_type"; "outcome"] ->
     exists s, Js.get k (envelope this event) = Js.Str s /\ s <> EmptyString)
  /\ (exists p, Js.get "payload" (envelope this event) = Js.Obj p)
  /\ Js.get "event_type" (envelope this event) = Js.Str (event_type event)
  /\ Js.get "action" (envelope this event) = Js.Str (action event).
Proof.
  repeat apply conj; try reflexivity.
  - intros k [<- | [<- | [<- | [<- | [<- | []]]]]].
    + rewrite get_event_category, or_default_string by discriminate.
      eexists. split; [reflexivity |]. now apply default_string_not_empty.
    + rewrite get_severity, or_default_string by discriminate.
      eexists. split; [reflexivity |]. now apply default_string_not_empty.
    + rewrite get_actor_id, or_default_string by discriminate.
      eexists. split; [reflexivity |]. now apply default_string_not_empty.
    + rewrite get_actor_type, cond_actor_type.
      eexists. split; [reflexivity |].
      now destruct (Js.truthy (Js.of_option_string (actor_id event))).
    + rewrite get_outcome, or_outcome.
      eexists. split; [reflexivity |]. now destruct (outcome event) as [[] |].
  - rewrite get_payload. destruct (payload event) as [p |]; eexists; reflexivity.
Qed.
